(** * LineSet geometry and its export to a VTK poly-data mesh

    A shallow embedding of [omf/lineset.py]: the class [LineSetGeometry]
    (counts, [location_length], the validator [_validate_mesh]) and the method
    [LineSetElement.toVTK], followed by the properties of the line-set
    specification that concern them.

    Conventions of the embedding.
    - Python integers (segment indices, group ids) are [Z]; lengths and the
      values of [range] are [nat].  [vtkIntArray] stores C [int]s: the group
      ids written to it are below the number of segments, which is taken to
      fit.
    - Coordinates and floating-point attribute values are binary64 floats
      ([PrimFloat.float]); no arithmetic is performed on them.
    - Segment indices are the values of an integer array, and VTK takes
      them as [vtkIdType], which holds them.
    - A raised exception is a value of [exn]; pure fallible code returns a
      [result], the exporter runs in a state-and-exception monad over the
      objects it can reach ([World]). *)

From Stdlib Require Import ZArith Lia Floats.PrimFloat.
From stdpp Require Import base list strings.

Set Default Proof Using "Type".

(** ** Exceptions and results *)

(** The element types of the numpy arrays the code meets; [np_str] is a
    unicode type '<U..' of any width. *)
Inductive dtype : Type :=
  | np_int64
  | np_float64
  | np_str
  | np_object.

(** [TypeError t] stands for [numpy_support]'s "Could not find a suitable
    VTK type for t". *)
Inductive exn : Type :=
  | ValueError (msg : string)
  | IndexError (index size : nat)
  | TypeError (t : dtype).

Inductive result (A : Type) : Type :=
  | Ok (a : A)
  | Raise (e : exn).
Arguments Ok {A} a.
Arguments Raise {A} e.

Class Monad (m : Type -> Type) : Type := {
  ret : forall {A}, A -> m A;
  bind : forall {A B}, m A -> (A -> m B) -> m B
}.

Notation "x <- c ;; k" := (bind c (fun x => k))
  (at level 20, c at level 99, k at level 200).
Notation "c ;; k" := (bind c (fun _ => k))
  (at level 100, k at level 200, right associativity).

#[global] Instance result_monad : Monad result := {
  ret := fun A a => Ok a;
  bind := fun A B c k => match c with Ok a => k a | Raise e => Raise e end
}.

(** ** Data model *)

(** One row of a [Vector3Array]. *)
Definition Vector3 : Type := float * float * float.

(** One row of an [Int2Array]: the two endpoint indices of a segment. *)
Definition Int2 : Type := Z * Z.

(** The values behind an attribute ([data.array.array]), as the numpy
    array [numpy.asarray] makes of them: integers and floats for the
    numeric kinds of data, unicode strings for [StringData], and objects
    for the datetimes of [DateTimeData] (here by their timestamps). *)
Inductive ndarray : Type :=
  | IntValues (l : list Z)
  | FloatValues (l : list float)
  | StringValues (l : list string)
  | DateTimeValues (l : list Z).

Definition np_len (a : ndarray) : nat :=
  match a with
  | IntValues l => length l
  | FloatValues l => length l
  | StringValues l => length l
  | DateTimeValues l => length l
  end.

Definition np_dtype (a : ndarray) : dtype :=
  match a with
  | IntValues _ => np_int64
  | FloatValues _ => np_float64
  | StringValues _ => np_str
  | DateTimeValues _ => np_object
  end.

Record LineSetGeometry : Type := {
  vertices : list Vector3;
  segments : list Int2
}.

(** An item of [self.data]: the exporter reads [data.name] and
    [data.array.array]; [location] is the tag [location_length] dispatches
    on. *)
Record ProjectElementData : Type := {
  name : string;
  location : string;
  array : ndarray
}.

Record LineSetElement : Type := {
  geometry : LineSetGeometry;
  data : list ProjectElementData;
  subtype : string
}.

Definition _valid_locations : list string := ["vertices"; "segments"].

(** ** LineSetGeometry *)

Definition num_nodes (self : LineSetGeometry) : nat := length (vertices self).

Definition num_cells (self : LineSetGeometry) : nat := length (segments self).

Definition location_length (self : LineSetGeometry) (location : string) : nat :=
  if String.eqb location "segments" then num_cells self else num_nodes self.

(** [np.min] and [np.max] reduce the flattened array and raise on an array
    without elements. *)
Definition ravel (a : list Int2) : list Z :=
  flat_map (fun s => [fst s; snd s]) a.

Definition np_min (a : list Z) : result Z :=
  match a with
  | [] => Raise (ValueError
      "zero-size array to reduction operation minimum which has no identity")
  | x :: r => Ok (foldl Z.min x r)
  end.

Definition np_max (a : list Z) : result Z :=
  match a with
  | [] => Raise (ValueError
      "zero-size array to reduction operation maximum which has no identity")
  | x :: r => Ok (foldl Z.max x r)
  end.

Definition _validate_mesh (self : LineSetGeometry) : result bool :=
  lo <- np_min (ravel (segments self)) ;;
  if (lo <? 0)%Z then
    Raise (ValueError "Segments may only have positive integers")
  else
    hi <- np_max (ravel (segments self)) ;;
    if (hi >=? Z.of_nat (length (vertices self)))%Z then
      Raise (ValueError "Segments expects more vertices than provided")
    else Ok true.

(** What the specification asks of the validator, as predicates on a
    geometry. *)
Definition index_in_range (self : LineSetGeometry) (i : Z) : Prop :=
  (0 <= i < Z.of_nat (num_nodes self))%Z.

Definition index_out_of_range (self : LineSetGeometry) (i : Z) : Prop :=
  (i < 0)%Z \/ (Z.of_nat (num_nodes self) <= i)%Z.

Definition accepts_iff_in_range (self : LineSetGeometry) : Prop :=
  _validate_mesh self = Ok true <->
  Forall (index_in_range self) (ravel (segments self)).

Definition rejects_iff_out_of_range (self : LineSetGeometry) : Prop :=
  (exists msg, _validate_mesh self = Raise (ValueError msg)) <->
  Exists (index_out_of_range self) (ravel (segments self)).

(** ** The VTK objects the exporter builds

    Only the part of VTK that [toVTK] calls is modelled.  [None] in a value
    list is a slot that was allocated and not written yet. *)

(** [vtkLine]: a cell whose [GetPointIds()] holds two ids, 0 when created. *)
Definition vtkLine : Type := list Z.
Definition vtkLine_new : vtkLine := [0%Z; 0%Z].
Definition SetId (i : nat) (v : Z) (l : vtkLine) : vtkLine := <[i:=v]> l.

(** [vtkCellArray]: the cells in insertion order. *)
Definition vtkCellArray : Type := list vtkLine.
Definition vtkCellArray_new : vtkCellArray := [].
Definition InsertNextCell (c : vtkLine) (cells : vtkCellArray) : vtkCellArray :=
  cells ++ [c].

(** [vtkPoints]: [SetNumberOfPoints] resizes, [SetData] replaces the
    coordinates by the given array. *)
Definition vtkPoints : Type := list (option Vector3).
Definition vtkPoints_new : vtkPoints := [].
Definition SetNumberOfPoints (n : nat) (p : vtkPoints) : vtkPoints :=
  resize n None p.
Definition SetData (a : list Vector3) (p : vtkPoints) : vtkPoints :=
  Some <$> a.

(** [vtkIntArray].  [SetValue] does no bounds check in VTK; the exporter
    only writes below the size it has set, where this is an update in
    place. *)
Record vtkIntArray : Type := {
  ia_Name : option string;
  ia_Values : list (option Z)
}.
Definition vtkIntArray_new : vtkIntArray :=
  {| ia_Name := None; ia_Values := [] |}.
Definition SetNumberOfValues (n : nat) (a : vtkIntArray) : vtkIntArray :=
  {| ia_Name := ia_Name a; ia_Values := resize n None (ia_Values a) |}.
Definition ia_SetName (n : string) (a : vtkIntArray) : vtkIntArray :=
  {| ia_Name := Some n; ia_Values := ia_Values a |}.
Definition SetValue (i : nat) (v : Z) (a : vtkIntArray) : vtkIntArray :=
  {| ia_Name := ia_Name a; ia_Values := <[i:=Some v]> (ia_Values a) |}.

(** The array [numpy_support.numpy_to_vtk] returns: unnamed, over the
    values of the numpy array.  It asks [get_vtk_array_type] for the VTK
    type of the elements, and there is one for the numeric types only. *)
Record vtkNumpyArray : Type := {
  na_Name : option string;
  na_Values : ndarray
}.
Definition has_vtk_array_type (t : dtype) : bool :=
  match t with
  | np_int64 | np_float64 => true
  | np_str | np_object => false
  end.
Definition numpy_to_vtk (num_array : ndarray) : result vtkNumpyArray :=
  if has_vtk_array_type (np_dtype num_array) then
    Ok {| na_Name := None; na_Values := num_array |}
  else Raise (TypeError (np_dtype num_array)).
Definition na_SetName (n : string) (a : vtkNumpyArray) : vtkNumpyArray :=
  {| na_Name := Some n; na_Values := na_Values a |}.

Inductive vtkAbstractArray : Type :=
  | IntArray (a : vtkIntArray)
  | NumpyArray (a : vtkNumpyArray).

Definition GetName (a : vtkAbstractArray) : option string :=
  match a with
  | IntArray a => ia_Name a
  | NumpyArray a => na_Name a
  end.

(** [vtkFieldData] (cell data, point data): the arrays in index order.
    [GetArray(name)] is the first array of that name.  [AddArray] replaces
    the array that already has the name of the new one and appends
    otherwise (vtkFieldData.h: "If an array with the same name already
    exists - then the added array will replace it"). *)
Definition vtkFieldData : Type := list vtkAbstractArray.

Fixpoint GetArray (n : string) (fd : vtkFieldData) : option vtkAbstractArray :=
  match fd with
  | [] => None
  | b :: r => if bool_decide (GetName b = Some n) then Some b else GetArray n r
  end.

Fixpoint replace_or_append (n : string) (a : vtkAbstractArray)
    (fd : vtkFieldData) : vtkFieldData :=
  match fd with
  | [] => [a]
  | b :: r =>
      if bool_decide (GetName b = Some n) then a :: r
      else b :: replace_or_append n a r
  end.

Definition AddArray (a : vtkAbstractArray) (fd : vtkFieldData) : vtkFieldData :=
  match GetName a with
  | Some n => replace_or_append n a fd
  | None => fd ++ [a]
  end.

Record vtkPolyData : Type := {
  Points : vtkPoints;
  Lines : vtkCellArray;
  CellData : vtkFieldData;
  PointData : vtkFieldData
}.
Definition vtkPolyData_new : vtkPolyData :=
  {| Points := []; Lines := []; CellData := []; PointData := [] |}.
Definition SetPoints (p : vtkPoints) (o : vtkPolyData) : vtkPolyData :=
  {| Points := p; Lines := Lines o;
     CellData := CellData o; PointData := PointData o |}.
Definition SetLines (c : vtkCellArray) (o : vtkPolyData) : vtkPolyData :=
  {| Points := Points o; Lines := c;
     CellData := CellData o; PointData := PointData o |}.
(** [o.GetCellData().f(...)]: a call that changes the cell data of [o]. *)
Definition on_CellData (f : vtkFieldData -> vtkFieldData) (o : vtkPolyData)
    : vtkPolyData :=
  {| Points := Points o; Lines := Lines o;
     CellData := f (CellData o); PointData := PointData o |}.

(** ** The exporter's state *)

(** The objects a call of [toVTK] can reach: the receiver and the VTK
    objects bound to its local names. *)
Record World : Type := {
  self : LineSetElement;
  output : vtkPolyData;
  cells : vtkCellArray;
  pts : vtkPoints;
  indexArr : vtkIntArray
}.

Definition on_output (f : vtkPolyData -> vtkPolyData) (w : World) : World :=
  {| self := self w; output := f (output w); cells := cells w;
     pts := pts w; indexArr := indexArr w |}.
Definition on_cells (f : vtkCellArray -> vtkCellArray) (w : World) : World :=
  {| self := self w; output := output w; cells := f (cells w);
     pts := pts w; indexArr := indexArr w |}.
Definition on_pts (f : vtkPoints -> vtkPoints) (w : World) : World :=
  {| self := self w; output := output w; cells := cells w;
     pts := f (pts w); indexArr := indexArr w |}.
Definition on_indexArr (f : vtkIntArray -> vtkIntArray) (w : World) : World :=
  {| self := self w; output := output w; cells := cells w;
     pts := pts w; indexArr := f (indexArr w) |}.

Definition M (A : Type) : Type := World -> World * result A.

#[global] Instance M_monad : Monad M := {
  ret := fun A a w => (w, Ok a);
  bind := fun A B c k w =>
    match c w with
    | (w', Ok a) => k a w'
    | (w', Raise e) => (w', Raise e)
    end
}.

Definition gets {A : Type} (f : World -> A) : M A := fun w => (w, Ok (f w)).
Definition modify (f : World -> World) : M unit := fun w => (f w, Ok tt).
Definition lift {A : Type} (r : result A) : M A := fun w => (w, r).

(** [for x in l: body], with the local variables the body reassigns passed
    along as [s]. *)
Fixpoint for_in {A S : Type} (body : A -> S -> M S) (l : list A) (s : S)
    : M S :=
  match l with
  | [] => ret s
  | x :: r => s' <- body x s ;; for_in body r s'
  end.

(** [a[i]] for [i >= 0]; [IndexError i n] stands for numpy's "index i is
    out of bounds for axis 0 with size n". *)
Definition getitem {A : Type} (a : list A) (i : nat) : result A :=
  match a !! i with
  | Some x => Ok x
  | None => Raise (IndexError i (length a))
  end.

(** ** LineSetElement.toVTK *)

(** The body of the loop over the segments (lines 86-96); [st] is
    [(last, segi)]. *)
Definition toVTK_segment (i : nat) (st : Z * Z) : M (Z * Z) :=
  segs <- gets (fun w => segments (geometry (self w))) ;;
  seg <- lift (getitem segs i) ;;
  let aLine := vtkLine_new in
  let aLine := SetId 0 (fst seg) aLine in
  let aLine := SetId 1 (snd seg) aLine in
  modify (on_cells (InsertNextCell aLine)) ;;
  let segi := if bool_decide (fst seg <> fst st) then (snd st + 1)%Z
              else snd st in
  let last := snd seg in
  modify (on_indexArr (SetValue i segi)) ;;
  ret (last, segi).

(** The body of the loop over [self.data] (lines 105-108). *)
Definition toVTK_data (d : ProjectElementData) (_ : unit) : M unit :=
  let arr := array d in
  c <- lift (numpy_to_vtk arr) ;;
  let c := na_SetName (name d) c in
  modify (on_output (on_CellData (AddArray (NumpyArray c)))).

Definition toVTK : M vtkPolyData :=
  (* lines 76-77 *)
  n <- gets (fun w => num_cells (geometry (self w))) ;;
  modify (on_indexArr (SetNumberOfValues n)) ;;
  modify (on_indexArr (ia_SetName "Line Index")) ;;
  (* lines 80-81; the points take the rows of numpy_to_vtk(vertices) *)
  n <- gets (fun w => num_nodes (geometry (self w))) ;;
  modify (on_pts (SetNumberOfPoints n)) ;;
  vs <- gets (fun w => vertices (geometry (self w))) ;;
  modify (on_pts (SetData vs)) ;;
  (* lines 83-84 *)
  segs <- gets (fun w => segments (geometry (self w))) ;;
  seg0 <- lift (getitem segs 0) ;;
  let last := fst seg0 in
  let segi := 0%Z in
  (* lines 85-96 *)
  segs <- gets (fun w => segments (geometry (self w))) ;;
  for_in toVTK_segment (seq 0 (length segs)) (last, segi) ;;
  (* lines 99-101 *)
  p <- gets pts ;;
  modify (on_output (SetPoints p)) ;;
  c <- gets cells ;;
  modify (on_output (SetLines c)) ;;
  a <- gets indexArr ;;
  modify (on_output (on_CellData (AddArray (IntArray a)))) ;;
  (* lines 104-108 *)
  ds <- gets (fun w => data (self w)) ;;
  for_in toVTK_data ds tt ;;
  (* line 112 *)
  gets output.

(** Entering the method: the receiver and the VTK objects created on lines
    70-72 and 75. *)
Definition enter (e : LineSetElement) : World :=
  {| self := e; output := vtkPolyData_new; cells := vtkCellArray_new;
     pts := vtkPoints_new; indexArr := vtkIntArray_new |}.

(** A call [e.toVTK()]: the state it ends in, and the mesh it returns or
    the exception it raises. *)
Definition call_toVTK (e : LineSetElement) : World * result vtkPolyData :=
  toVTK (enter e).

(** ** Vocabulary of the statements *)

(** The group ids the segment loop assigns, read off lines 93-96: the ids
    of [segs] when the loop reaches them with the locals [last], [segi]. *)
Fixpoint line_index (last segi : Z) (segs : list Int2) : list Z :=
  match segs with
  | [] => []
  | seg :: r =>
      let segi := if bool_decide (fst seg <> last) then (segi + 1)%Z
                  else segi in
      segi :: line_index (snd seg) segi r
  end.

(** [ids] groups [segs] the way the specification describes: one id per
    segment, the first id 0, ids never decreasing, and each id one more
    than the previous one exactly where a segment does not start at the
    end of the segment before it. *)
Definition grouped (segs : list Int2) (ids : list Z) : Prop :=
  length ids = length segs /\
  ids !! 0 = Some 0%Z /\
  (forall i j a b, i <= j -> ids !! i = Some a -> ids !! j = Some b ->
     (a <= b)%Z) /\
  (forall i p s a b,
     segs !! i = Some p -> segs !! S i = Some s ->
     ids !! i = Some a -> ids !! S i = Some b ->
     b = if bool_decide (fst s <> snd p) then (a + 1)%Z else a).

(** The 2-point cell of a segment. *)
Definition line_cell (seg : Int2) : vtkLine := [fst seg; snd seg].

(** The last attribute of [ds] called [n], if any. *)
Fixpoint attr_named (n : string) (ds : list ProjectElementData)
    : option ProjectElementData :=
  match ds with
  | [] => None
  | d :: r =>
      match attr_named n r with
      | Some d' => Some d'
      | None => if bool_decide (name d = n) then Some d else None
      end
  end.

(** The VTK array the data loop makes of an attribute. *)
Definition vtk_of_data (d : ProjectElementData) : vtkAbstractArray :=
  NumpyArray {| na_Name := Some (name d); na_Values := array d |}.

(** The mesh [m] carries the geometry of [e]: its points, its line cells,
    and under "Line Index" the integer array of the grouping pass. *)
Definition exports_geometry (e : LineSetElement) (m : vtkPolyData) : Prop :=
  length (Points m) = num_nodes (geometry e) /\
  Points m = Some <$> vertices (geometry e) /\
  length (Lines m) = num_cells (geometry e) /\
  Lines m = line_cell <$> segments (geometry e) /\
  GetArray "Line Index" (CellData m)
    = Some (IntArray (indexArr (fst (call_toVTK e)))).

(** The export fails on a line set without segments, and not by the
    failing subscript [segments[0]]: the specification's [EmptyGeometry]. *)
Definition raises_EmptyGeometry (e : LineSetElement) : Prop :=
  exists x, snd (call_toVTK e) = Raise x /\
    getitem (segments (geometry e)) 0 <> Raise x.

(** Some attribute of [e] has not the length its location asks for. *)
Definition length_mismatch (e : LineSetElement) : Prop :=
  Exists (fun d => np_len (array d)
                     <> location_length (geometry e) (location d)) (data e).

(** The collection of [m] an attribute at [location] belongs to. *)
Definition collection_of (location : string) (m : vtkPolyData) : vtkFieldData :=
  if String.eqb location "segments" then CellData m else PointData m.

(** The group ids of a whole segment sequence: [last] starts as the start
    of the first segment and [segi] as 0 (lines 83-84). *)
Definition group_ids (segs : list Int2) : list Z :=
  match segs with
  | [] => []
  | seg0 :: _ => line_index (fst seg0) 0 segs
  end.

(** The cell data after the data loop has run over [ds]. *)
Definition attach (ds : list ProjectElementData) (fd : vtkFieldData)
    : vtkFieldData :=
  foldl (fun fd d => AddArray (vtk_of_data d) fd) fd ds.

(** An attribute whose array [numpy_to_vtk] converts. *)
Definition convertible (d : ProjectElementData) : Prop :=
  has_vtk_array_type (np_dtype (array d)) = true.

(** The attributes the data loop gets through: those before the first
    whose array [numpy_to_vtk] refuses; and the exception it stops with at
    that one, if there is one. *)
Fixpoint attached (ds : list ProjectElementData) : list ProjectElementData :=
  match ds with
  | [] => []
  | d :: r =>
      if has_vtk_array_type (np_dtype (array d)) then d :: attached r else []
  end.

Fixpoint data_error (ds : list ProjectElementData) : option exn :=
  match ds with
  | [] => None
  | d :: r =>
      if has_vtk_array_type (np_dtype (array d)) then data_error r
      else Some (TypeError (np_dtype (array d)))
  end.

(** The state a call of [toVTK] on a line set that has a segment ends
    in. *)
Definition exported (e : LineSetElement) : World :=
  let g := geometry e in
  let ia := {| ia_Name := Some "Line Index";
               ia_Values := Some <$> group_ids (segments g) |} in
  {| self := e;
     output := {| Points := Some <$> vertices g;
                  Lines := line_cell <$> segments g;
                  CellData := attach (attached (data e)) [IntArray ia];
                  PointData := [] |};
     cells := line_cell <$> segments g;
     pts := Some <$> vertices g;
     indexArr := ia |}.

(** A computation that leaves the receiver as it found it, whether it
    returns or raises. *)
Definition frames {A : Type} (c : M A) : Prop :=
  forall w, self (fst (c w)) = self w.

(** All data arrays of a mesh, those of the cells first. *)
Definition mesh_arrays (m : vtkPolyData) : vtkFieldData :=
  CellData m ++ PointData m.

(** ** Concrete line sets *)

Definition two_polylines : LineSetGeometry :=
  {| vertices := [(0, 0, 0); (1, 0, 0); (5, 5, 5); (6, 5, 5)]%float;
     segments := [(0, 1); (2, 3)]%Z |}.

Definition one_polyline : LineSetGeometry :=
  {| vertices := [(0, 0, 0); (1, 0, 0); (2, 0, 0)]%float;
     segments := [(0, 1); (1, 2)]%Z |}.

(** The same segments over other coordinates. *)
Definition one_polyline_moved : LineSetGeometry :=
  {| vertices := [(7, 7, 7); (8, 7, 7); (9, 7, 7)]%float;
     segments := [(0, 1); (1, 2)]%Z |}.

Definition no_segments : LineSetGeometry :=
  {| vertices := [(0, 0, 0); (1, 0, 0)]%float; segments := [] |}.

Definition bare (g : LineSetGeometry) : LineSetElement :=
  {| geometry := g; data := []; subtype := "line" |}.

(** A node attribute: one value per vertex of [one_polyline]. *)
Definition with_node_attribute : LineSetElement :=
  {| geometry := one_polyline;
     data := [ {| name := "elevation"; location := "vertices";
                  array := FloatValues [1; 2; 3]%float |} ];
     subtype := "line" |}.

(** A cell attribute of three values on the two segments of
    [one_polyline]. *)
Definition with_long_attribute : LineSetElement :=
  {| geometry := one_polyline;
     data := [ {| name := "grade"; location := "segments";
                  array := IntValues [4; 5; 6]%Z |} ];
     subtype := "line" |}.

(** A text attribute, as a [StringData] brings it. *)
Definition with_string_attribute : LineSetElement :=
  {| geometry := one_polyline;
     data := [ {| name := "grade"; location := "segments";
                  array := IntValues [4; 5]%Z |};
               {| name := "rock"; location := "segments";
                  array := StringValues ["shale"; "sand"] |} ];
     subtype := "line" |}.

(** A cell attribute that takes the name of the group-id array. *)
Definition with_clashing_attribute : LineSetElement :=
  {| geometry := two_polylines;
     data := [ {| name := "Line Index"; location := "segments";
                  array := IntValues [7; 7]%Z |} ];
     subtype := "line" |}.

(** ** Vocabulary of the further properties *)

(** A segment taken in the other direction. *)
Definition reversed (seg : Int2) : Int2 := (snd seg, fst seg).

(** Every segment of [segs] starts at [last], resp. at the end of the
    segment before it. *)
Fixpoint chain_from (last : Z) (segs : list Int2) : Prop :=
  match segs with
  | [] => True
  | seg :: r => fst seg = last /\ chain_from (snd seg) r
  end.

(** [segs] is one directed chain: every segment but the first starts where
    the segment before it ends. *)
Definition chained (segs : list Int2) : Prop :=
  match segs with
  | [] => True
  | seg :: r => chain_from (snd seg) r
  end.

(** The values of the array [indexArr] when a call of [toVTK] on [e] is
    over. *)
Definition Line_Index (e : LineSetElement) : list (option Z) :=
  ia_Values (indexArr (fst (call_toVTK e))).

(** A line cell of [m] that has two point ids, each the index of a point
    of [m]. *)
Definition cell_in_points (m : vtkPolyData) (c : vtkLine) : Prop :=
  exists a b : Z, c = [a; b] /\
    (0 <= a < Z.of_nat (length (Points m)))%Z /\
    (0 <= b < Z.of_nat (length (Points m)))%Z.

(** What the data loop reads of an attribute. *)
Definition name_and_array (d : ProjectElementData) : string * ndarray :=
  (name d, array d).

(** * Properties *)

(** ** Counts and [location_length] *)

(** C7: [num_nodes] is the length of the vertex sequence, [num_cells] the
    length of the segment sequence, and [location_length] answers
    [num_cells] for the location "segments" and [num_nodes] for every other
    location.  This holds for every geometry, valid or not. *)
Theorem location_length_spec (g : LineSetGeometry) (location : string) :
  num_nodes g = length (vertices g) /\
  num_cells g = length (segments g) /\
  (location = "segments" -> location_length g location = num_cells g) /\
  (location <> "segments" -> location_length g location = num_nodes g).
Proof.
  unfold location_length.
  destruct (String.eqb_spec location "segments") as [Heq | Hne];
    repeat split; congruence.
Qed.

(** ** The validator *)

Section reductions.
Implicit Types (x b : Z) (r : list Z).

Lemma foldl_min_lt r x b :
  (foldl Z.min x r < b)%Z <-> Exists (fun y => (y < b)%Z) (x :: r).
Proof.
  revert x; induction r as [| y r IH]; intros x; simpl.
  - rewrite Exists_cons, Exists_nil. tauto.
  - rewrite IH, !Exists_cons. intuition lia.
Qed.

Lemma foldl_max_ge r x b :
  (b <= foldl Z.max x r)%Z <-> Exists (fun y => (b <= y)%Z) (x :: r).
Proof.
  revert x; induction r as [| y r IH]; intros x; simpl.
  - rewrite Exists_cons, Exists_nil. tauto.
  - rewrite IH, !Exists_cons. intuition lia.
Qed.

Lemma in_range_not_out (n : Z) (l : list Z) :
  Forall (fun i => (0 <= i < n)%Z) l <->
  ~ Exists (fun y => (y < 0)%Z) l /\ ~ Exists (fun y => (n <= y)%Z) l.
Proof.
  induction l as [| y l IH].
  - rewrite !Exists_nil. split; [tauto | constructor].
  - rewrite Forall_cons, !Exists_cons, IH. intuition lia.
Qed.

Lemma out_of_range_split (n : Z) (l : list Z) :
  Exists (fun i => (i < 0)%Z \/ (n <= i)%Z) l <->
  Exists (fun y => (y < 0)%Z) l \/ Exists (fun y => (n <= y)%Z) l.
Proof.
  induction l as [| y l IH].
  - rewrite !Exists_nil. tauto.
  - rewrite !Exists_cons, IH. tauto.
Qed.
End reductions.

Lemma ravel_cons (s : Int2) (r : list Int2) :
  ravel (s :: r) = fst s :: snd s :: ravel r.
Proof. reflexivity. Qed.

(** The validator on a geometry that has a segment, by cases on the two
    comparisons it makes. *)
Lemma validate_mesh_cases (g : LineSetGeometry) :
  segments g <> [] ->
  let l := ravel (segments g) in
  let n := Z.of_nat (num_nodes g) in
  (Exists (fun y => (y < 0)%Z) l /\
   _validate_mesh g
     = Raise (ValueError "Segments may only have positive integers")) \/
  (~ Exists (fun y => (y < 0)%Z) l /\ Exists (fun y => (n <= y)%Z) l /\
   _validate_mesh g
     = Raise (ValueError "Segments expects more vertices than provided")) \/
  (~ Exists (fun y => (y < 0)%Z) l /\ ~ Exists (fun y => (n <= y)%Z) l /\
   _validate_mesh g = Ok true).
Proof.
  intros Hne l n. subst l n. unfold _validate_mesh, num_nodes.
  destruct (segments g) as [| s r]; [congruence |].
  rewrite ravel_cons. cbn [np_min np_max bind result_monad].
  set (x := fst s). set (t := snd s :: ravel r).
  destruct (Z.ltb_spec (foldl Z.min x t) 0) as [Hlo | Hlo].
  - left. split; [by apply foldl_min_lt | reflexivity].
  - right.
    assert (~ Exists (fun y => (y < 0)%Z) (x :: t)) as Hnlo
      by (rewrite <- foldl_min_lt; lia).
    destruct (Z.geb_spec (foldl Z.max x t) (Z.of_nat (length (vertices g))))
      as [Hhi | Hhi].
    + left. split; [done | split; [| done]].
      apply foldl_max_ge. lia.
    + right. split; [done | split; [| done]].
      rewrite <- foldl_max_ge. lia.
Qed.

(** C5, as amended: for every geometry whose segment sequence is not empty,
    the validator accepts if and only if every segment index lies in
    [0, num_nodes), and it raises a [ValueError] exactly when some segment
    index is negative or at least [num_nodes]. *)
Theorem validate_mesh_in_range (g : LineSetGeometry) :
  segments g <> [] ->
  accepts_iff_in_range g /\ rejects_iff_out_of_range g.
Proof.
  intros Hne. unfold accepts_iff_in_range, rejects_iff_out_of_range.
  unfold index_in_range, index_out_of_range.
  rewrite in_range_not_out, out_of_range_split.
  destruct (validate_mesh_cases g Hne) as [[H1 ->] | [(H1 & H2 & ->) | (H1 & H2 & ->)]].
  - split; split; try tauto; try discriminate. eauto.
  - split; split; try tauto; try discriminate. eauto.
  - split; split; try tauto; try discriminate.
    intros [msg Hmsg]; discriminate.
Qed.

Lemma validate_mesh_in_range_witness :
  segments two_polylines <> [] /\
  accepts_iff_in_range two_polylines /\ rejects_iff_out_of_range two_polylines.
Proof.
  split; [discriminate | apply (validate_mesh_in_range two_polylines); discriminate].
Defined.

(** C5, as first stated, fails on a geometry without segments: no index is
    out of range there, and the validator does not accept. *)
Lemma validate_mesh_in_range_counterexample :
  Forall (index_in_range no_segments) (ravel (segments no_segments)) /\
  _validate_mesh no_segments <> Ok true /\
  ~ accepts_iff_in_range no_segments.
Proof.
  split; [constructor | split; [discriminate |]].
  unfold accepts_iff_in_range. intros [_ H].
  assert (_validate_mesh no_segments = Ok true) as Hok
    by (apply H; constructor).
  discriminate Hok.
Qed.

(** The validator on a segment that points past the three vertices, and on
    one with a negative index. *)
Example validate_mesh_index_past_vertices :
  _validate_mesh {| vertices := vertices one_polyline;
                    segments := [(0, 5)]%Z |}
    = Raise (ValueError "Segments expects more vertices than provided").
Proof. reflexivity. Qed.

Example validate_mesh_negative_index :
  _validate_mesh {| vertices := vertices one_polyline;
                    segments := [(0, 1); (-1, 2)]%Z |}
    = Raise (ValueError "Segments may only have positive integers").
Proof. reflexivity. Qed.

(** C8: the outcome of validation is determined by the number of vertices
    and the segments: two geometries with the same segments and as many
    vertices are both accepted, or both rejected with the same error. *)
Theorem validate_mesh_depends_on_counts (g1 g2 : LineSetGeometry) :
  segments g1 = segments g2 ->
  length (vertices g1) = length (vertices g2) ->
  _validate_mesh g1 = _validate_mesh g2.
Proof.
  intros Hs Hv. unfold _validate_mesh. rewrite Hs, Hv. reflexivity.
Qed.

Lemma validate_mesh_depends_on_counts_witness :
  vertices one_polyline <> vertices one_polyline_moved /\
  _validate_mesh one_polyline = _validate_mesh one_polyline_moved.
Proof.
  split; [discriminate |].
  apply (validate_mesh_depends_on_counts one_polyline one_polyline_moved);
    reflexivity.
Defined.

(** C10: on a geometry whose segment sequence is empty the validator
    raises, the error being that of the minimum of an empty array; so a
    geometry the validator accepts, or answers anything for, has a
    segment. *)
Theorem validate_mesh_no_segments (g : LineSetGeometry) :
  segments g = [] ->
  _validate_mesh g
    = Raise (ValueError
        "zero-size array to reduction operation minimum which has no identity")
  /\ (forall b, _validate_mesh g <> Ok b).
Proof.
  intros Hs. unfold _validate_mesh. rewrite Hs. simpl.
  split; [reflexivity | discriminate].
Qed.

Lemma validate_mesh_no_segments_witness :
  _validate_mesh no_segments
    = Raise (ValueError
        "zero-size array to reduction operation minimum which has no identity")
  /\ (forall b, _validate_mesh no_segments <> Ok b).
Proof.
  apply (validate_mesh_no_segments no_segments). reflexivity.
Defined.

(** ** Running the exporter *)

Lemma GetArray_replace_or_append (n n' : string) (a : vtkAbstractArray)
    (fd : vtkFieldData) :
  GetName a = Some n' ->
  GetArray n (replace_or_append n' a fd)
    = if bool_decide (n' = n) then Some a else GetArray n fd.
Proof.
  intros Ha. induction fd as [| b r IH]; simpl.
  - rewrite Ha. repeat case_bool_decide; simplify_eq; done.
  - destruct (decide (GetName b = Some n')) as [Hb | Hb].
    + rewrite (bool_decide_true _ Hb). simpl. rewrite Ha.
      repeat case_bool_decide; simplify_eq; try done; congruence.
    + rewrite (bool_decide_false _ Hb). simpl. rewrite IH.
      repeat case_bool_decide; simplify_eq; try done; congruence.
Qed.

Lemma GetArray_app_unnamed (n : string) (a : vtkAbstractArray)
    (fd : vtkFieldData) :
  GetName a = None -> GetArray n (fd ++ [a]) = GetArray n fd.
Proof.
  intros Ha. induction fd as [| b r IH]; simpl.
  - rewrite Ha. reflexivity.
  - rewrite IH. reflexivity.
Qed.

(** What [GetArray] finds after an [AddArray]. *)
Lemma GetArray_AddArray (n : string) (a : vtkAbstractArray)
    (fd : vtkFieldData) :
  GetArray n (AddArray a fd)
    = if bool_decide (GetName a = Some n) then Some a else GetArray n fd.
Proof.
  unfold AddArray. destruct (GetName a) as [n' |] eqn:Ha.
  - rewrite (GetArray_replace_or_append n n' a fd Ha).
    repeat case_bool_decide; simplify_eq; done.
  - rewrite (GetArray_app_unnamed n a fd Ha). reflexivity.
Qed.

(** After the data loop, a name is bound to the last attribute that has
    it, and to what it was bound to before when no attribute has it. *)
Lemma GetArray_attach (n : string) (ds : list ProjectElementData)
    (fd : vtkFieldData) :
  GetArray n (attach ds fd)
    = match attr_named n ds with
      | Some d => Some (vtk_of_data d)
      | None => GetArray n fd
      end.
Proof.
  revert fd; induction ds as [| d r IH]; intros fd; [reflexivity |].
  change (attach (d :: r) fd) with (attach r (AddArray (vtk_of_data d) fd)).
  rewrite IH. simpl. destruct (attr_named n r) as [d' |]; [reflexivity |].
  rewrite GetArray_AddArray. simpl.
  repeat case_bool_decide; simplify_eq; done.
Qed.

Lemma attr_named_None (n : string) (ds : list ProjectElementData) :
  Forall (fun d => name d <> n) ds -> attr_named n ds = None.
Proof.
  induction 1 as [| d r Hd _ IH]; simpl; [reflexivity |].
  rewrite IH. rewrite bool_decide_false; done.
Qed.

Lemma attr_named_Some (n : string) (ds : list ProjectElementData)
    (d : ProjectElementData) :
  attr_named n ds = Some d -> In d ds /\ name d = n.
Proof.
  induction ds as [| d0 r IH]; simpl; [discriminate |].
  destruct (attr_named n r) as [d' |].
  - intros [= ->]. destruct IH as [Hin Hn]; [reflexivity |]. tauto.
  - case_bool_decide; [| discriminate].
    intros [= ->]. tauto.
Qed.

Lemma attr_named_is_Some (ds : list ProjectElementData)
    (d : ProjectElementData) :
  In d ds -> is_Some (attr_named (name d) ds).
Proof.
  induction ds as [| d0 r IH]; simpl; [tauto |].
  intros [-> | Hin].
  - destruct (attr_named (name d) r); [eauto |].
    rewrite bool_decide_true; eauto.
  - destruct (IH Hin) as [d' ->]. eauto.
Qed.

(** The data loop adds arrays to the cell data of [output], until it is
    through or [numpy_to_vtk] refuses an array. *)
Lemma for_data_run (ds : list ProjectElementData) (e : LineSetElement)
    (p : vtkPoints) (l : vtkCellArray) (cd pd : vtkFieldData)
    (c : vtkCellArray) (q : vtkPoints) (a : vtkIntArray) :
  for_in toVTK_data ds tt
    {| self := e;
       output := {| Points := p; Lines := l; CellData := cd; PointData := pd |};
       cells := c; pts := q; indexArr := a |}
  = ({| self := e;
        output := {| Points := p; Lines := l;
                     CellData := attach (attached ds) cd; PointData := pd |};
        cells := c; pts := q; indexArr := a |},
     match data_error ds with None => Ok tt | Some x => Raise x end).
Proof.
  revert cd; induction ds as [| d r IH]; intros cd; [reflexivity |].
  cbn [for_in attached data_error]. unfold toVTK_data at 1.
  unfold numpy_to_vtk.
  destruct (has_vtk_array_type (np_dtype (array d))).
  - cbv [bind M_monad modify lift on_output on_CellData
         self output cells pts indexArr Points Lines CellData PointData].
    rewrite IH. reflexivity.
  - reflexivity.
Qed.

Lemma attached_convertible (ds : list ProjectElementData) :
  Forall convertible ds -> attached ds = ds /\ data_error ds = None.
Proof.
  induction 1 as [| d r Hd _ [IH1 IH2]]; [split; reflexivity |].
  simpl. rewrite Hd, IH1, IH2. split; reflexivity.
Qed.

Lemma data_error_None (ds : list ProjectElementData) :
  data_error ds = None -> Forall convertible ds.
Proof.
  induction ds as [| d r IH]; [constructor |].
  simpl. destruct (has_vtk_array_type (np_dtype (array d))) eqn:Hd;
    [| discriminate].
  intros H. constructor; [exact Hd | by apply IH].
Qed.

(** The segment loop, from any point of its run: [done] are the segments
    it has passed and [vdone] the ids it has written for them. *)
Lemma for_segments_run (todo done : list Int2) (vdone vtodo : list (option Z))
    (e : LineSetElement) (o : vtkPolyData) (c : vtkCellArray) (q : vtkPoints)
    (nm : option string) (last segi : Z) :
  segments (geometry e) = done ++ todo ->
  length vdone = length done ->
  length vtodo = length todo ->
  exists st,
    for_in toVTK_segment (seq (length done) (length todo)) (last, segi)
      {| self := e; output := o; cells := c; pts := q;
         indexArr := {| ia_Name := nm; ia_Values := vdone ++ vtodo |} |}
    = ({| self := e; output := o; cells := c ++ (line_cell <$> todo);
          pts := q;
          indexArr := {| ia_Name := nm;
                         ia_Values := vdone
                           ++ (Some <$> line_index last segi todo) |} |},
       Ok st).
Proof.
  revert done vdone vtodo c last segi.
  induction todo as [| s r IH]; intros done vdone vtodo c last segi Hs Hd Ht.
  - destruct vtodo; [| discriminate]. exists (last, segi).
    simpl. rewrite !app_nil_r. reflexivity.
  - destruct vtodo as [| v vr]; [discriminate |].
    cbn [length seq for_in]. unfold toVTK_segment at 1.
    cbv [bind M_monad gets modify lift ret on_cells on_indexArr SetValue
         InsertNextCell self output cells pts indexArr ia_Name ia_Values].
    rewrite Hs. unfold getitem.
    rewrite (list_lookup_middle done r s (length done) eq_refl).
    cbn [fst snd].
    rewrite insert_app_r_alt by lia.
    rewrite Hd, Nat.sub_diag. cbn [list_insert insert].
    set (segi' := if bool_decide (fst s <> last) then (segi + 1)%Z else segi).
    destruct (IH (done ++ [s]) (vdone ++ [Some segi']) vr
                 (c ++ [SetId 1 (snd s) (SetId 0 (fst s) vtkLine_new)])
                 (snd s) segi') as [st Hst].
    + rewrite <- app_assoc. exact Hs.
    + rewrite !length_app, Hd. reflexivity.
    + simpl in Ht. lia.
    + exists st. rewrite length_app, Nat.add_1_r in Hst.
      rewrite <- !app_assoc in Hst. exact Hst.
Qed.

(** A call on a line set that has a segment ends in the state
    [exported]; it returns unless the data loop has raised. *)
Lemma call_toVTK_run (e : LineSetElement) :
  segments (geometry e) <> [] ->
  call_toVTK e
  = (exported e,
     match data_error (data e) with
     | None => Ok (output (exported e))
     | Some x => Raise x
     end).
Proof.
  intros Hne. destruct (segments (geometry e)) as [| s r] eqn:Hs;
    [congruence | clear Hne].
  unfold call_toVTK, toVTK, enter.
  cbv [bind M_monad gets modify lift ret on_pts on_indexArr on_output
       SetNumberOfValues ia_SetName SetNumberOfPoints SetData SetPoints
       SetLines on_CellData vtkIntArray_new vtkPolyData_new vtkPoints_new
       vtkCellArray_new
       self output cells pts indexArr ia_Name ia_Values
       Points Lines CellData PointData].
  rewrite Hs. cbn [getitem lookup list_lookup fst].
  destruct (for_segments_run (s :: r) [] [] (resize (num_cells (geometry e)) None [])
              e {| Points := []; Lines := []; CellData := []; PointData := [] |}
              [] (Some <$> vertices (geometry e)) (Some "Line Index")
              (fst s) 0%Z) as [st Hst].
  - exact Hs.
  - reflexivity.
  - rewrite length_resize. unfold num_cells. rewrite Hs. reflexivity.
  - cbn [length app] in Hst. cbn [length]. rewrite Hst.
    cbn [AddArray GetName ia_Name replace_or_append].
    rewrite for_data_run.
    unfold exported, group_ids. rewrite Hs.
    destruct (data_error (data e)); reflexivity.
Qed.

(** It returns when [numpy_to_vtk] converts the array of every
    attribute, and then all attributes have been attached. *)
Lemma call_toVTK_returns (e : LineSetElement) :
  segments (geometry e) <> [] ->
  Forall convertible (data e) ->
  call_toVTK e = (exported e, Ok (output (exported e)))
  /\ attached (data e) = data e.
Proof.
  intros Hne Hc. rewrite (call_toVTK_run e Hne).
  destruct (attached_convertible _ Hc) as [Ha ->]. split; [reflexivity | exact Ha].
Qed.

(** A call on a line set without segments stops at the subscript
    [segments[0]] of line 83, before anything is put into [output]. *)
Lemma call_toVTK_raises (e : LineSetElement) :
  segments (geometry e) = [] ->
  call_toVTK e
  = ({| self := e; output := vtkPolyData_new; cells := [];
        pts := Some <$> vertices (geometry e);
        indexArr := {| ia_Name := Some "Line Index"; ia_Values := [] |} |},
     Raise (IndexError 0 0)).
Proof.
  intros Hs. unfold call_toVTK, toVTK, enter.
  cbv [bind M_monad gets modify lift ret on_pts on_indexArr on_output
       SetNumberOfValues ia_SetName SetNumberOfPoints SetData
       vtkIntArray_new vtkPolyData_new vtkPoints_new vtkCellArray_new
       self output cells pts indexArr ia_Name ia_Values num_cells].
  rewrite Hs. reflexivity.
Qed.

(** A mesh is returned only by a line set that has a segment and
    attributes [numpy_to_vtk] converts, and it is the output of
    [exported]. *)
Lemma call_toVTK_Ok (e : LineSetElement) (m : vtkPolyData) :
  snd (call_toVTK e) = Ok m ->
  segments (geometry e) <> [] /\ Forall convertible (data e) /\
  attached (data e) = data e /\ m = output (exported e).
Proof.
  intros Hm. destruct (segments (geometry e)) as [| s r] eqn:Hs.
  - rewrite (call_toVTK_raises e Hs) in Hm. discriminate Hm.
  - assert (segments (geometry e) <> []) as Hne by congruence.
    rewrite (call_toVTK_run e Hne) in Hm. cbn [snd] in Hm.
    destruct (data_error (data e)) eqn:He; [discriminate Hm |].
    injection Hm as <-. apply data_error_None in He.
    repeat split; [congruence | exact He |].
    by destruct (attached_convertible _ He).
Qed.

(** ** The grouping pass *)

Lemma line_index_length (segs : list Int2) (last segi : Z) :
  length (line_index last segi segs) = length segs.
Proof.
  revert last segi; induction segs as [| s r IH]; intros last segi; simpl;
    [reflexivity | by rewrite IH].
Qed.

(** Ids never fall below the id the loop arrives with. *)
Lemma line_index_ge (segs : list Int2) (last segi : Z) (i : nat) (a : Z) :
  line_index last segi segs !! i = Some a -> (segi <= a)%Z.
Proof.
  revert last segi i; induction segs as [| s r IH]; intros last segi i;
    [discriminate |].
  destruct i as [| i]; simpl.
  - intros [= <-]. case_bool_decide; lia.
  - intros H. apply IH in H. case_bool_decide; lia.
Qed.

Lemma line_index_mono (segs : list Int2) (last segi : Z) (i j : nat)
    (a b : Z) :
  i <= j ->
  line_index last segi segs !! i = Some a ->
  line_index last segi segs !! j = Some b ->
  (a <= b)%Z.
Proof.
  revert last segi i j; induction segs as [| s r IH]; intros last segi i j Hij;
    [discriminate |].
  destruct i as [| i], j as [| j]; simpl; try lia.
  - intros [= <-] [= <-]. lia.
  - intros [= <-] H. by apply line_index_ge in H.
  - apply IH. lia.
Qed.

Lemma line_index_step (segs : list Int2) (last segi : Z) (i : nat)
    (p s : Int2) (a b : Z) :
  segs !! i = Some p -> segs !! S i = Some s ->
  line_index last segi segs !! i = Some a ->
  line_index last segi segs !! S i = Some b ->
  b = if bool_decide (fst s <> snd p) then (a + 1)%Z else a.
Proof.
  revert last segi i; induction segs as [| x r IH]; intros last segi i;
    [discriminate |].
  destruct i as [| i].
  - destruct r as [| y r]; [discriminate |]. simpl.
    intros [= ->] [= ->] [= <-] [= <-]. reflexivity.
  - simpl. apply IH.
Qed.

Lemma group_ids_grouped (segs : list Int2) :
  segs <> [] -> grouped segs (group_ids segs).
Proof.
  destruct segs as [| s r]; [congruence | intros _].
  unfold grouped, group_ids. repeat split.
  - apply line_index_length.
  - simpl. rewrite bool_decide_false; [reflexivity | tauto].
  - intros i j a b. apply line_index_mono.
  - intros i p t a b. apply line_index_step.
Qed.

(** C1: on a segment sequence that is not empty the grouping pass of
    [toVTK] writes one group id per segment; the first id is 0, the ids
    never decrease, and the id of segment i >= 1 is one more than the id of
    segment i-1 when segment i does not start where segment i-1 ends, and
    the same id otherwise. *)
Theorem grouping_pass_spec (e : LineSetElement) :
  segments (geometry e) <> [] ->
  exists ids : list Z,
    ia_Values (indexArr (fst (call_toVTK e))) = Some <$> ids /\
    grouped (segments (geometry e)) ids.
Proof.
  intros Hne. exists (group_ids (segments (geometry e))).
  rewrite (call_toVTK_run e Hne). split; [reflexivity |].
  by apply group_ids_grouped.
Qed.

Lemma grouping_pass_spec_witness :
  segments (geometry (bare two_polylines)) <> [] /\
  exists ids : list Z,
    ia_Values (indexArr (fst (call_toVTK (bare two_polylines))))
      = Some <$> ids /\
    grouped (segments (geometry (bare two_polylines))) ids.
Proof.
  split; [discriminate |].
  apply (grouping_pass_spec (bare two_polylines)). discriminate.
Defined.

(** The two grouping scenarios of the specification. *)
Example grouping_one_polyline :
  ia_Values (indexArr (fst (call_toVTK (bare one_polyline))))
    = [Some 0%Z; Some 0%Z].
Proof. reflexivity. Qed.

Example grouping_two_polylines :
  ia_Values (indexArr (fst (call_toVTK (bare two_polylines))))
    = [Some 0%Z; Some 1%Z].
Proof. reflexivity. Qed.

(** ** A line set without segments *)

(** C2, as amended: when the segment sequence is empty the export fails
    with the [IndexError] of the subscript [segments[0]], and nothing has
    been put into the output mesh. *)
Theorem toVTK_no_segments (e : LineSetElement) :
  segments (geometry e) = [] ->
  snd (call_toVTK e) = Raise (IndexError 0 0) /\
  getitem (segments (geometry e)) 0 = Raise (IndexError 0 0) /\
  output (fst (call_toVTK e)) = vtkPolyData_new.
Proof.
  intros Hs. rewrite (call_toVTK_raises e Hs), Hs. repeat split.
Qed.

Lemma toVTK_no_segments_witness :
  snd (call_toVTK (bare no_segments)) = Raise (IndexError 0 0) /\
  getitem (segments (geometry (bare no_segments))) 0 = Raise (IndexError 0 0) /\
  output (fst (call_toVTK (bare no_segments))) = vtkPolyData_new.
Proof.
  apply (toVTK_no_segments (bare no_segments)). reflexivity.
Defined.

(** C2, as first stated, fails: on the line set [bare no_segments], which
    has no segment, the failure of the export is the failure of the
    subscript. *)
Lemma toVTK_no_segments_counterexample :
  segments (geometry (bare no_segments)) = [] /\
  ~ raises_EmptyGeometry (bare no_segments).
Proof.
  split; [reflexivity |].
  intros (x & Hx & Hsub). apply Hsub.
  injection Hx as <-. reflexivity.
Qed.

(** ** The exported mesh *)

Lemma validated_has_segment (g : LineSetGeometry) (b : bool) :
  _validate_mesh g = Ok b -> segments g <> [].
Proof.
  intros Hok Hs. unfold _validate_mesh in Hok. rewrite Hs in Hok.
  discriminate Hok.
Qed.

(** C6, as amended: for every validated geometry, and attributes none of
    which is named "Line Index", the exported mesh has one point per
    vertex, in order; one 2-point line cell per segment, in order, holding
    the two vertex indices of the segment as they are; and under
    "Line Index" the integer cell array the grouping pass has filled.  A
    mesh is exported when the arrays of the attributes are numeric. *)
Theorem toVTK_exports_geometry (e : LineSetElement) :
  _validate_mesh (geometry e) = Ok true ->
  Forall (fun d => name d <> "Line Index") (data e) ->
  (Forall convertible (data e) -> exists m, snd (call_toVTK e) = Ok m) /\
  (forall m, snd (call_toVTK e) = Ok m -> exports_geometry e m).
Proof.
  intros Hok Hnames. apply validated_has_segment in Hok. split.
  - intros Hc. destruct (call_toVTK_returns e Hok Hc) as [-> _]. eauto.
  - intros m Hm.
    destruct (call_toVTK_Ok e m Hm) as (_ & _ & Ha & ->).
    unfold exports_geometry, num_nodes, num_cells.
    rewrite (call_toVTK_run e Hok).
    cbn [fst exported output indexArr Points Lines CellData].
    rewrite !length_fmap. repeat split.
    rewrite Ha, GetArray_attach, (attr_named_None _ _ Hnames). reflexivity.
Qed.

Lemma toVTK_exports_geometry_witness :
  _validate_mesh (geometry (bare two_polylines)) = Ok true /\
  (exists m, snd (call_toVTK (bare two_polylines)) = Ok m) /\
  (forall m, snd (call_toVTK (bare two_polylines)) = Ok m ->
     exports_geometry (bare two_polylines) m).
Proof.
  split; [reflexivity |].
  destruct (toVTK_exports_geometry (bare two_polylines)) as [H1 H2];
    [reflexivity | constructor |].
  split; [apply H1; constructor | exact H2].
Defined.

(** C6, as first stated, fails when an attribute is called "Line Index":
    the geometry of [with_clashing_attribute] is valid, and in the mesh
    exported for it that name is bound to the attribute, which replaced the
    group ids. *)
Lemma toVTK_exports_geometry_counterexample :
  _validate_mesh (geometry with_clashing_attribute) = Ok true /\
  ~ (exists m, snd (call_toVTK with_clashing_attribute) = Ok m /\
       exports_geometry with_clashing_attribute m).
Proof.
  split; [reflexivity |].
  intros (m & Hm & _ & _ & _ & _ & Hidx).
  injection Hm as <-. discriminate Hidx.
Qed.

(** ** Attributes *)

(** C3 at the line set [with_node_attribute]: its attribute "elevation" is
    located on the vertices and has one value per vertex; the exported mesh
    has it in the cell data, and the node data is empty. *)
Theorem toVTK_node_attribute_in_cell_data :
  exists d m,
    data with_node_attribute = [d] /\ location d = "vertices" /\
    np_len (array d) = num_nodes (geometry with_node_attribute) /\
    snd (call_toVTK with_node_attribute) = Ok m /\
    GetArray (name d) (collection_of (location d) m) = None /\
    PointData m = [] /\
    GetArray (name d) (CellData m) = Some (vtk_of_data d).
Proof.
  do 2 eexists. repeat split.
Qed.

(** C4, as amended: the exporter checks no length.  For every validated
    geometry and attributes with numeric arrays, whatever the lengths of
    the arrays, the export returns a mesh, and among the data arrays of the
    mesh the name of every attribute is bound to the array of the last
    attribute of that name, as it was supplied. *)
Theorem toVTK_checks_no_length (e : LineSetElement) :
  _validate_mesh (geometry e) = Ok true ->
  Forall convertible (data e) ->
  exists m, snd (call_toVTK e) = Ok m /\
    (forall d, In d (data e) ->
       exists d', attr_named (name d) (data e) = Some d' /\
         GetArray (name d) (mesh_arrays m)
           = Some (NumpyArray {| na_Name := Some (name d);
                                 na_Values := array d' |})).
Proof.
  intros Hok Hc. apply validated_has_segment in Hok.
  destruct (call_toVTK_returns e Hok Hc) as [-> Ha].
  eexists; split; [reflexivity |].
  intros d Hd. destruct (attr_named_is_Some _ _ Hd) as [d' Hd'].
  exists d'. split; [exact Hd' |].
  unfold mesh_arrays. cbn [snd exported output CellData PointData].
  rewrite app_nil_r, Ha, GetArray_attach, Hd'.
  apply attr_named_Some in Hd' as [_ Hn]. unfold vtk_of_data.
  rewrite Hn. reflexivity.
Qed.

Lemma toVTK_checks_no_length_witness :
  length_mismatch with_long_attribute /\
  exists m, snd (call_toVTK with_long_attribute) = Ok m /\
    (forall d, In d (data with_long_attribute) ->
       exists d', attr_named (name d) (data with_long_attribute) = Some d' /\
         GetArray (name d) (mesh_arrays m)
           = Some (NumpyArray {| na_Name := Some (name d);
                                 na_Values := array d' |})).
Proof.
  split.
  - apply Exists_cons_hd. vm_compute. discriminate.
  - apply (toVTK_checks_no_length with_long_attribute);
      [reflexivity | repeat constructor].
Defined.

(** C4, as first stated, fails: the attribute of [with_long_attribute] has
    three values for two segments, and the export returns a mesh. *)
Lemma toVTK_checks_no_length_counterexample :
  length_mismatch with_long_attribute /\
  ~ (exists x, snd (call_toVTK with_long_attribute) = Raise x).
Proof.
  split.
  - apply Exists_cons_hd. vm_compute. discriminate.
  - intros [x Hx]. discriminate Hx.
Qed.

(** ** The receiver is only read *)

Lemma frames_ret {A : Type} (a : A) : frames (ret a).
Proof. intros w. reflexivity. Qed.

Lemma frames_gets {A : Type} (f : World -> A) : frames (gets f).
Proof. intros w. reflexivity. Qed.

Lemma frames_lift {A : Type} (r : result A) : frames (lift r).
Proof. intros w. reflexivity. Qed.

Lemma frames_modify (f : World -> World) :
  (forall w, self (f w) = self w) -> frames (modify f).
Proof. intros Hf w. apply Hf. Qed.

Lemma frames_bind {A B : Type} (c : M A) (k : A -> M B) :
  frames c -> (forall a, frames (k a)) -> frames (bind c k).
Proof.
  intros Hc Hk w. specialize (Hc w). cbn [bind M_monad].
  destruct (c w) as [w' [a | x]]; simpl in *; [| exact Hc].
  rewrite Hk. exact Hc.
Qed.

Lemma frames_for_in {A S : Type} (body : A -> S -> M S) (l : list A) (s : S) :
  (forall x s, frames (body x s)) -> frames (for_in body l s).
Proof.
  intros Hbody. revert s; induction l as [| x r IH]; intros s; simpl.
  - apply frames_ret.
  - apply frames_bind; [apply Hbody | exact IH].
Qed.

Ltac frame :=
  repeat first
    [ apply frames_ret | apply frames_gets | apply frames_lift
    | apply frames_modify; intros ?; reflexivity
    | apply frames_bind; [| intros ?] ].

Lemma toVTK_segment_frames (i : nat) (st : Z * Z) : frames (toVTK_segment i st).
Proof. unfold toVTK_segment. frame. Qed.

Lemma toVTK_data_frames (d : ProjectElementData) (u : unit) :
  frames (toVTK_data d u).
Proof. unfold toVTK_data. frame. Qed.

Lemma toVTK_frames : frames toVTK.
Proof.
  unfold toVTK. frame.
  - apply frames_for_in, toVTK_segment_frames.
  - apply frames_for_in, toVTK_data_frames.
Qed.

(** C9: a call of the exporter, whether it returns a mesh or raises,
    leaves the receiver as it was: the vertex sequence, the segment
    sequence and every attribute, with its array, are what they were
    before the call. *)
Theorem toVTK_reads_only (e : LineSetElement) :
  self (fst (call_toVTK e)) = e /\
  vertices (geometry (self (fst (call_toVTK e)))) = vertices (geometry e) /\
  segments (geometry (self (fst (call_toVTK e)))) = segments (geometry e) /\
  data (self (fst (call_toVTK e))) = data e /\
  array <$> data (self (fst (call_toVTK e))) = array <$> data e.
Proof.
  assert (self (fst (call_toVTK e)) = e) as ->
    by (unfold call_toVTK; rewrite toVTK_frames; reflexivity).
  repeat split.
Qed.

(** * Further properties of the code *)

(** ** More on the validator *)

(** X1: on a geometry that has a segment, the validator raises "Segments
    may only have positive integers" exactly when some segment index is
    negative, and "Segments expects more vertices than provided" exactly
    when no index is negative and some index is at least the number of
    vertices: the negative check comes first. *)
Theorem validate_mesh_messages (g : LineSetGeometry) :
  segments g <> [] ->
  (_validate_mesh g
     = Raise (ValueError "Segments may only have positive integers")
   <-> Exists (fun i => (i < 0)%Z) (ravel (segments g))) /\
  (_validate_mesh g
     = Raise (ValueError "Segments expects more vertices than provided")
   <-> ~ Exists (fun i => (i < 0)%Z) (ravel (segments g)) /\
       Exists (fun i => (Z.of_nat (num_nodes g) <= i)%Z)
         (ravel (segments g))).
Proof.
  intros Hne.
  destruct (validate_mesh_cases g Hne)
    as [[H1 ->] | [(H1 & H2 & ->) | (H1 & H2 & ->)]];
    (split; split; try tauto; try discriminate).
Qed.

Lemma validate_mesh_messages_witness :
  (_validate_mesh two_polylines
     = Raise (ValueError "Segments may only have positive integers")
   <-> Exists (fun i => (i < 0)%Z) (ravel (segments two_polylines))) /\
  (_validate_mesh two_polylines
     = Raise (ValueError "Segments expects more vertices than provided")
   <-> ~ Exists (fun i => (i < 0)%Z) (ravel (segments two_polylines)) /\
       Exists (fun i => (Z.of_nat (num_nodes two_polylines) <= i)%Z)
         (ravel (segments two_polylines))).
Proof.
  apply (validate_mesh_messages two_polylines). discriminate.
Defined.

(** X2: the validator answers nothing but [True], and a geometry it
    accepts has at least one vertex and at least one segment. *)
Theorem validated_not_empty (g : LineSetGeometry) (b : bool) :
  _validate_mesh g = Ok b ->
  b = true /\ 0 < num_nodes g /\ 0 < num_cells g.
Proof.
  intros Hok. pose proof (validated_has_segment g b Hok) as Hne.
  destruct (validate_mesh_cases g Hne)
    as [[H1 H] | [(H1 & H2 & H) | (H1 & H2 & H)]];
    rewrite H in Hok; try discriminate Hok.
  injection Hok as <-. split; [reflexivity |].
  unfold num_cells. destruct (segments g) as [| s r]; [congruence |].
  rewrite ravel_cons in H1, H2. rewrite Exists_cons in H1, H2.
  simpl. lia.
Qed.

Lemma validated_not_empty_witness :
  true = true /\ 0 < num_nodes one_polyline /\ 0 < num_cells one_polyline.
Proof.
  apply (validated_not_empty one_polyline true). reflexivity.
Defined.

Lemma ravel_Permutation (a b : list Int2) :
  a ≡ₚ b -> ravel a ≡ₚ ravel b.
Proof.
  induction 1 as [| s a b _ IH | s t a | a b c _ IH1 _ IH2].
  - reflexivity.
  - rewrite !ravel_cons, IH. reflexivity.
  - rewrite !ravel_cons.
    change (([fst t; snd t] ++ [fst s; snd s]) ++ ravel a
            ≡ₚ ([fst s; snd s] ++ [fst t; snd t]) ++ ravel a).
    apply Permutation_app_tail, Permutation_app_comm.
  - by rewrite IH1.
Qed.

Lemma ravel_reversed (a : list Int2) :
  ravel (reversed <$> a) ≡ₚ ravel a.
Proof.
  induction a as [| s a IH]; [reflexivity |].
  rewrite fmap_cons, !ravel_cons, IH. simpl. apply Permutation_swap.
Qed.

(** The validator looks at the flattened indices as a multiset. *)
Lemma validate_mesh_Permutation (g1 g2 : LineSetGeometry) :
  length (vertices g1) = length (vertices g2) ->
  ravel (segments g1) ≡ₚ ravel (segments g2) ->
  _validate_mesh g1 = _validate_mesh g2.
Proof.
  intros Hv Hp.
  destruct (segments g1) as [| s1 r1] eqn:Hs1.
  - apply Permutation_nil_l in Hp.
    destruct (segments g2) as [| s2 r2] eqn:Hs2; [| discriminate Hp].
    unfold _validate_mesh. rewrite Hs1, Hs2. reflexivity.
  - assert (segments g2 <> []) as Hne2.
    { intros Hs2. rewrite Hs2 in Hp. apply Permutation_nil_r in Hp.
      discriminate Hp. }
    assert (segments g1 <> []) as Hne1 by congruence.
    rewrite <- Hs1 in Hp.
    pose proof (validate_mesh_cases g1 Hne1) as C1.
    pose proof (validate_mesh_cases g2 Hne2) as C2.
    cbv zeta in C1, C2. unfold num_nodes in C1, C2.
    rewrite Hv in C1. rewrite Hp in C1.
    destruct C1 as [[A1 ->] | [(A1 & A2 & ->) | (A1 & A2 & ->)]];
      destruct C2 as [[B1 ->] | [(B1 & B2 & ->) | (B1 & B2 & ->)]];
      tauto.
Qed.

(** X3: validation does not depend on the order of the segments nor on
    their direction: a geometry with as many vertices whose segments are
    those of [g1] in another order, or each reversed, gets the answer of
    [g1]. *)
Theorem validate_mesh_order_and_direction (g1 g2 : LineSetGeometry) :
  length (vertices g1) = length (vertices g2) ->
  segments g2 ≡ₚ segments g1 \/ segments g2 = reversed <$> segments g1 ->
  _validate_mesh g2 = _validate_mesh g1.
Proof.
  intros Hv Hs. symmetry. apply validate_mesh_Permutation; [exact Hv |].
  destruct Hs as [Hp | ->].
  - symmetry. by apply ravel_Permutation.
  - symmetry. apply ravel_reversed.
Qed.

Lemma validate_mesh_order_and_direction_witness :
  _validate_mesh {| vertices := vertices two_polylines;
                    segments := reversed <$> segments two_polylines |}
  = _validate_mesh two_polylines.
Proof.
  apply (validate_mesh_order_and_direction two_polylines
           {| vertices := vertices two_polylines;
              segments := reversed <$> segments two_polylines |});
    [reflexivity | right; reflexivity].
Defined.

(** ** More on the grouping pass *)

Lemma Line_Index_group_ids (e : LineSetElement) :
  segments (geometry e) <> [] ->
  Line_Index e = Some <$> group_ids (segments (geometry e)).
Proof.
  intros Hne. unfold Line_Index. rewrite (call_toVTK_run e Hne).
  reflexivity.
Qed.

Lemma Line_Index_no_segments (e : LineSetElement) :
  segments (geometry e) = [] -> Line_Index e = [].
Proof.
  intros Hs. unfold Line_Index. rewrite (call_toVTK_raises e Hs).
  reflexivity.
Qed.

Lemma line_index_le (segs : list Int2) (last segi : Z) (i : nat) (a : Z) :
  line_index last segi segs !! i = Some a -> (a <= segi + Z.of_nat (S i))%Z.
Proof.
  revert last segi i; induction segs as [| s r IH]; intros last segi i;
    [discriminate |].
  destruct i as [| i]; simpl.
  - intros [= <-]. case_bool_decide; lia.
  - intros H. apply IH in H. case_bool_decide; lia.
Qed.

(** X4: the group id of segment [i] lies between 0 and [i]; so every
    group id is non-negative and below the number of segments. *)
Theorem group_id_bounds (e : LineSetElement) (i : nat) (id : Z) :
  Line_Index e !! i = Some (Some id) ->
  (0 <= id <= Z.of_nat i)%Z /\ i < num_cells (geometry e).
Proof.
  intros Hi. destruct (segments (geometry e)) as [| s r] eqn:Hs.
  - rewrite (Line_Index_no_segments e Hs) in Hi. discriminate Hi.
  - assert (segments (geometry e) <> []) as Hne by congruence.
    rewrite (Line_Index_group_ids e Hne), list_lookup_fmap in Hi.
    destruct (group_ids (segments (geometry e)) !! i) as [a |] eqn:Ha;
      [| discriminate Hi].
    injection Hi as ->. split.
    + rewrite Hs in Ha. unfold group_ids in Ha.
      destruct i as [| i]; simpl in Ha.
      * rewrite bool_decide_false in Ha by tauto. injection Ha as <-. lia.
      * rewrite bool_decide_false in Ha by tauto.
        pose proof (line_index_ge _ _ _ _ _ Ha).
        pose proof (line_index_le _ _ _ _ _ Ha). lia.
    + apply lookup_lt_Some in Ha. unfold num_cells.
      rewrite Hs in Ha |- *. unfold group_ids in Ha.
      by rewrite line_index_length in Ha.
Qed.

Lemma group_id_bounds_witness :
  (0 <= 1 <= Z.of_nat 1)%Z /\ 1 < num_cells (geometry (bare two_polylines)).
Proof.
  apply (group_id_bounds (bare two_polylines) 1 1). reflexivity.
Defined.

Lemma line_index_constant (segs : list Int2) (last segi : Z) :
  Forall (fun a => a = segi) (line_index last segi segs)
  <-> chain_from last segs.
Proof.
  revert last segi; induction segs as [| s r IH]; intros last segi; simpl.
  - split; [tauto | constructor].
  - rewrite Forall_cons. case_bool_decide as Hb.
    + split; [lia | tauto].
    + rewrite IH. intuition.
Qed.

(** X5: on a segment sequence that is not empty, all group ids are 0 (the
    line set is exported as one polyline) exactly when every segment but
    the first starts at the vertex where the segment before it ends. *)
Theorem one_group_iff_chained (e : LineSetElement) :
  segments (geometry e) <> [] ->
  Forall (fun v => v = Some 0%Z) (Line_Index e)
  <-> chained (segments (geometry e)).
Proof.
  intros Hne. rewrite (Line_Index_group_ids e Hne), Forall_fmap.
  destruct (segments (geometry e)) as [| s r]; [congruence |].
  unfold group_ids, chained.
  rewrite <- (line_index_constant r (snd s) 0).
  simpl. rewrite bool_decide_false by tauto.
  rewrite Forall_cons. simpl.
  split.
  - intros [_ H]. eapply Forall_impl; [exact H |].
    simpl. intros a [= ->]. reflexivity.
  - intros H. split; [reflexivity |].
    eapply Forall_impl; [exact H |]. simpl. intros a ->. reflexivity.
Qed.

Lemma one_group_iff_chained_witness :
  Forall (fun v => v = Some 0%Z) (Line_Index (bare one_polyline))
  <-> chained (segments (geometry (bare one_polyline))).
Proof.
  apply (one_group_iff_chained (bare one_polyline)). discriminate.
Defined.

Lemma line_index_shift (segs : list Int2) (last segi d : Z) :
  line_index last (segi + d) segs
  = (fun x => (x + d)%Z) <$> line_index last segi segs.
Proof.
  revert last segi; induction segs as [| s r IH]; intros last segi;
    [reflexivity |].
  simpl. case_bool_decide.
  - replace (segi + d + 1)%Z with (segi + 1 + d)%Z by lia.
    by rewrite IH.
  - by rewrite IH.
Qed.

Lemma line_index_app (a b : list Int2) (lst segi : Z) (p : Int2) (id : Z) :
  last a = Some p ->
  last (line_index lst segi a) = Some id ->
  line_index lst segi (a ++ b)
  = line_index lst segi a ++ line_index (snd p) id b.
Proof.
  revert lst segi; induction a as [| s r IH]; intros lst segi;
    [discriminate |].
  destruct r as [| s' r].
  - simpl. intros [= <-] [= <-]. reflexivity.
  - intros Hp Hid. rewrite last_cons_cons in Hp.
    change (line_index lst segi (s :: s' :: r)) with
      ((if bool_decide (fst s <> lst) then (segi + 1)%Z else segi)
         :: line_index (snd s)
              (if bool_decide (fst s <> lst) then (segi + 1)%Z else segi)
              (s' :: r)) in Hid |- *.
    change (line_index lst segi ((s :: s' :: r) ++ b)) with
      ((if bool_decide (fst s <> lst) then (segi + 1)%Z else segi)
         :: line_index (snd s)
              (if bool_decide (fst s <> lst) then (segi + 1)%Z else segi)
              ((s' :: r) ++ b)).
    assert (last (line_index (snd s)
              (if bool_decide (fst s <> lst) then (segi + 1)%Z else segi)
              (s' :: r)) = Some id) as Hid'.
    { revert Hid. simpl. done. }
    rewrite (IH _ _ Hp Hid'). reflexivity.
Qed.

(** X6: the group ids of a segment sequence made of two sequences, one
    after the other, are the ids of the first followed by the ids of the
    second, each raised by the last id of the first, and by one more when
    the second does not start where the first ends.  Segments appended to
    a line set leave the ids of the segments before them unchanged. *)
Theorem grouping_of_concatenation (e1 e2 e : LineSetElement) (p q : Int2)
    (id : Z) :
  segments (geometry e)
    = segments (geometry e1) ++ segments (geometry e2) ->
  last (segments (geometry e1)) = Some p ->
  head (segments (geometry e2)) = Some q ->
  last (Line_Index e1) = Some (Some id) ->
  Line_Index e
  = Line_Index e1
      ++ (fmap (M:=option) (fun x => (x + (if bool_decide (fst q <> snd p)
                                then id + 1 else id))%Z)
            <$> Line_Index e2).
Proof.
  intros Hs Hp Hq Hid.
  assert (segments (geometry e1) <> []) as Hne1
    by (intros H0; rewrite H0 in Hp; discriminate Hp).
  assert (segments (geometry e2) <> []) as Hne2
    by (intros H0; rewrite H0 in Hq; discriminate Hq).
  assert (segments (geometry e) <> []) as Hne.
  { rewrite Hs. intros H0. apply app_eq_nil in H0 as [H0 _]. tauto. }
  rewrite (Line_Index_group_ids e1 Hne1), fmap_last in Hid.
  rewrite (Line_Index_group_ids e Hne), (Line_Index_group_ids e1 Hne1),
    (Line_Index_group_ids e2 Hne2), Hs.
  destruct (segments (geometry e1)) as [| s1 r1]; [congruence |].
  destruct (segments (geometry e2)) as [| s2 r2]; [congruence |].
  injection Hq as ->.
  destruct (last (group_ids (s1 :: r1))) as [id' |] eqn:Hl;
    [| discriminate Hid].
  injection Hid as ->.
  unfold group_ids in Hl |- *.
  change ((s1 :: r1) ++ q :: r2) with (s1 :: (r1 ++ q :: r2)).
  cbv iota.
  change (s1 :: (r1 ++ q :: r2)) with ((s1 :: r1) ++ q :: r2).
  rewrite (line_index_app (s1 :: r1) (q :: r2) (fst s1) 0 p id Hp Hl).
  rewrite fmap_app. f_equal.
  rewrite <- list_fmap_compose. simpl.
  rewrite (bool_decide_false (fst q <> fst q)) by tauto.
  set (off := if bool_decide (fst q <> snd p) then (id + 1)%Z else id).
  f_equal.
  rewrite (line_index_shift r2 (snd q) 0 off : line_index _ off _ = _).
  rewrite <- list_fmap_compose. reflexivity.
Qed.

Lemma grouping_of_concatenation_witness :
  Line_Index (bare two_polylines)
  = Line_Index (bare {| vertices := vertices two_polylines;
                        segments := [(0, 1)]%Z |})
      ++ (fmap (M:=option) (fun x => (x + (if bool_decide (fst (2, 3)%Z <> snd (0, 1)%Z)
                                then 0 + 1 else 0))%Z)
            <$> Line_Index (bare {| vertices := vertices two_polylines;
                                    segments := [(2, 3)]%Z |})).
Proof.
  apply (grouping_of_concatenation
           (bare {| vertices := vertices two_polylines;
                    segments := [(0, 1)]%Z |})
           (bare {| vertices := vertices two_polylines;
                    segments := [(2, 3)]%Z |})
           (bare two_polylines) (0, 1)%Z (2, 3)%Z 0%Z); reflexivity.
Defined.

(** ** More on the exported mesh *)

Lemma ravel_Forall (P : Z -> Prop) (segs : list Int2) :
  Forall P (ravel segs) <-> Forall (fun s => P (fst s) /\ P (snd s)) segs.
Proof.
  induction segs as [| s r IH].
  - split; constructor.
  - rewrite ravel_cons, !Forall_cons, IH. tauto.
Qed.

Lemma validated_in_range (g : LineSetGeometry) (b : bool) :
  _validate_mesh g = Ok b ->
  Forall (fun i => (0 <= i < Z.of_nat (num_nodes g))%Z) (ravel (segments g)).
Proof.
  intros Hok. pose proof (validated_has_segment g b Hok) as Hne.
  apply in_range_not_out.
  destruct (validate_mesh_cases g Hne)
    as [[H1 H] | [(H1 & H2 & H) | (H1 & H2 & H)]];
    rewrite H in Hok; try discriminate Hok.
  tauto.
Qed.

(** X7: validation followed by export gives a mesh whose cells can be
    drawn: for a validated geometry, whatever the attributes, every mesh
    the export returns has line cells of two point ids, each of them the
    index of a point of the mesh; and the export returns a mesh when the
    arrays of the attributes are numeric. *)
Theorem validated_export_cells_in_points (e : LineSetElement) :
  _validate_mesh (geometry e) = Ok true ->
  (Forall convertible (data e) -> exists m, snd (call_toVTK e) = Ok m) /\
  (forall m, snd (call_toVTK e) = Ok m ->
     Forall (cell_in_points m) (Lines m)).
Proof.
  intros Hok. pose proof (validated_has_segment _ _ Hok) as Hne.
  apply validated_in_range in Hok. rewrite ravel_Forall in Hok. split.
  - intros Hc. destruct (call_toVTK_returns e Hne Hc) as [-> _]. eauto.
  - intros m Hm. destruct (call_toVTK_Ok e m Hm) as (_ & _ & _ & ->).
    cbn [exported output Lines]. rewrite Forall_fmap.
    eapply Forall_impl; [exact Hok |].
    intros s [Ha Hb]. exists (fst s), (snd s).
    unfold num_nodes in Ha, Hb. cbn [Points]. rewrite length_fmap.
    repeat split; lia.
Qed.

Lemma validated_export_cells_in_points_witness :
  (exists m, snd (call_toVTK with_long_attribute) = Ok m) /\
  (forall m, snd (call_toVTK with_long_attribute) = Ok m ->
     Forall (cell_in_points m) (Lines m)).
Proof.
  destruct (validated_export_cells_in_points with_long_attribute)
    as [H1 H2]; [reflexivity |].
  split; [apply H1; repeat constructor | exact H2].
Defined.

(** ** More on the attributes *)




(** The export of [with_string_attribute] stops at its second attribute,
    the first one attached. *)
Example toVTK_string_attribute :
  snd (call_toVTK with_string_attribute) = Raise (TypeError np_str) /\
  GetName <$> CellData (output (fst (call_toVTK with_string_attribute)))
    = [Some "Line Index"; Some "grade"].
Proof. split; reflexivity. Qed.



(** X9: the exporter puts every attribute into the cell data and nothing
    into the node data, whatever the location of the attribute: in every
    mesh returned for a line set that has a segment, the node data is
    empty, and the name of every attribute is bound in the cell data to
    the array of the last attribute that has this name.  A mesh is
    returned when the arrays of the attributes are numeric. *)
Theorem toVTK_attributes_in_cell_data (e : LineSetElement) :
  segments (geometry e) <> [] ->
  (Forall convertible (data e) -> exists m, snd (call_toVTK e) = Ok m) /\
  (forall m, snd (call_toVTK e) = Ok m ->
     PointData m = [] /\
     (forall d, In d (data e) ->
        exists d', attr_named (name d) (data e) = Some d' /\
          name d' = name d /\
          GetArray (name d) (CellData m)
            = Some (NumpyArray {| na_Name := Some (name d);
                                  na_Values := array d' |}))).
Proof.
  intros Hne. split.
  - intros Hc. destruct (call_toVTK_returns e Hne Hc) as [-> _]. eauto.
  - intros m Hm. destruct (call_toVTK_Ok e m Hm) as (_ & _ & Ha & ->).
    split; [reflexivity |].
    intros d Hd. destruct (attr_named_is_Some _ _ Hd) as [d' Hd'].
    exists d'. split; [exact Hd' |].
    cbn [exported output CellData]. rewrite Ha, GetArray_attach, Hd'.
    apply attr_named_Some in Hd' as [_ Hn]. unfold vtk_of_data.
    rewrite Hn. done.
Qed.

Lemma toVTK_attributes_in_cell_data_witness :
  (exists m, snd (call_toVTK with_node_attribute) = Ok m) /\
  (forall m, snd (call_toVTK with_node_attribute) = Ok m ->
     PointData m = [] /\
     (forall d, In d (data with_node_attribute) ->
        exists d', attr_named (name d) (data with_node_attribute) = Some d' /\
          name d' = name d /\
          GetArray (name d) (CellData m)
            = Some (NumpyArray {| na_Name := Some (name d);
                                  na_Values := array d' |}))).
Proof.
  destruct (toVTK_attributes_in_cell_data with_node_attribute) as [H1 H2];
    [discriminate |].
  split; [apply H1; repeat constructor | exact H2].
Defined.

Lemma attach_fmap (ds : list ProjectElementData) (fd : vtkFieldData) :
  attach ds fd = foldl (fun fd a => AddArray a fd) fd (vtk_of_data <$> ds).
Proof.
  revert fd; induction ds as [| d r IH]; intros fd; [reflexivity |].
  simpl. apply IH.
Qed.

(** What the data loop does is determined by the names and arrays. *)
Lemma data_loop_names_and_arrays (ds1 ds2 : list ProjectElementData) :
  name_and_array <$> ds1 = name_and_array <$> ds2 ->
  data_error ds1 = data_error ds2 /\
  vtk_of_data <$> attached ds1 = vtk_of_data <$> attached ds2.
Proof.
  revert ds2; induction ds1 as [| d1 r1 IH]; intros [| d2 r2] H;
    try discriminate H; [split; reflexivity |].
  rewrite !fmap_cons in H. injection H as Hn Ha Hr.
  destruct (IH r2 Hr) as [IH1 IH2]. simpl. rewrite <- Ha.
  destruct (has_vtk_array_type (np_dtype (array d1))); [| split; reflexivity].
  split; [exact IH1 |].
  rewrite !fmap_cons, IH2. unfold vtk_of_data at 1 3.
  rewrite Hn, Ha. reflexivity.
Qed.

(** X10: the mesh a call returns, or the exception it raises, depends on
    the geometry and on the names and arrays of the attributes only: line
    sets that differ in [subtype] or in the locations of their attributes
    are exported alike. *)
Theorem toVTK_reads_names_and_arrays (e1 e2 : LineSetElement) :
  geometry e1 = geometry e2 ->
  name_and_array <$> data e1 = name_and_array <$> data e2 ->
  snd (call_toVTK e1) = snd (call_toVTK e2).
Proof.
  intros Hg Hd.
  destruct (data_loop_names_and_arrays _ _ Hd) as [He Hv].
  destruct (segments (geometry e1)) as [| s r] eqn:Hs.
  - rewrite (call_toVTK_raises e1 Hs).
    rewrite Hg in Hs. rewrite (call_toVTK_raises e2 Hs). reflexivity.
  - assert (segments (geometry e1) <> []) as Hne1 by congruence.
    assert (segments (geometry e2) <> []) as Hne2 by (rewrite <- Hg; done).
    rewrite (call_toVTK_run e1 Hne1), (call_toVTK_run e2 Hne2).
    cbn [snd]. rewrite He.
    destruct (data_error (data e2)); [reflexivity |].
    cbn [exported output]. rewrite !attach_fmap, Hv, Hg. reflexivity.
Qed.

Lemma toVTK_reads_names_and_arrays_witness :
  snd (call_toVTK with_node_attribute)
  = snd (call_toVTK
           {| geometry := one_polyline;
              data := [ {| name := "elevation"; location := "segments";
                           array := FloatValues [1; 2; 3]%float |} ];
              subtype := "borehole" |}).
Proof.
  apply (toVTK_reads_names_and_arrays with_node_attribute
           {| geometry := one_polyline;
              data := [ {| name := "elevation"; location := "segments";
                           array := FloatValues [1; 2; 3]%float |} ];
              subtype := "borehole" |}); reflexivity.
Defined.

(** The names in a field data after [replace_or_append]. *)
Lemma names_replace_or_append (n : string) (a : vtkAbstractArray)
    (fd : vtkFieldData) :
  GetName a = Some n ->
  GetName <$> replace_or_append n a fd
  = if bool_decide (Some n ∈ GetName <$> fd) then GetName <$> fd
    else (GetName <$> fd) ++ [Some n].
Proof.
  intros Ha. induction fd as [| b r IH].
  - simpl. rewrite Ha. reflexivity.
  - cbn [replace_or_append].
    destruct (decide (GetName b = Some n)) as [Hb | Hb].
    + rewrite (bool_decide_true _ Hb). rewrite !fmap_cons, Ha, Hb.
      rewrite bool_decide_true; [reflexivity | apply elem_of_cons; tauto].
    + rewrite (bool_decide_false _ Hb). rewrite !fmap_cons, IH.
      destruct (decide (Some n ∈ GetName <$> r)) as [Hr | Hr].
      * rewrite (bool_decide_true _ Hr).
        rewrite bool_decide_true; [reflexivity | apply elem_of_cons; tauto].
      * rewrite (bool_decide_false _ Hr).
        rewrite bool_decide_false; [reflexivity |].
        rewrite elem_of_cons. intros [Heq | Hin]; [congruence | tauto].
Qed.

Lemma names_AddArray_named (a : vtkAbstractArray) (fd : vtkFieldData)
    (n : string) :
  GetName a = Some n ->
  NoDup (GetName <$> fd) /\ None ∉ GetName <$> fd ->
  NoDup (GetName <$> AddArray a fd) /\ None ∉ GetName <$> AddArray a fd.
Proof.
  intros Ha [Hnd Hnone]. unfold AddArray. rewrite Ha.
  rewrite (names_replace_or_append n a fd Ha).
  case_bool_decide as Hin; [tauto |]. split.
  - apply NoDup_app. split; [exact Hnd |]. split; [| apply NoDup_singleton].
    intros x Hx Hx'. apply list_elem_of_singleton in Hx'. congruence.
  - rewrite not_elem_of_app. split; [exact Hnone |].
    intros Hx. apply list_elem_of_singleton in Hx. discriminate Hx.
Qed.

Lemma names_attach (ds : list ProjectElementData) (fd : vtkFieldData) :
  NoDup (GetName <$> fd) /\ None ∉ GetName <$> fd ->
  NoDup (GetName <$> attach ds fd) /\ None ∉ GetName <$> attach ds fd.
Proof.
  revert fd; induction ds as [| d r IH]; intros fd Hfd; [exact Hfd |].
  change (attach (d :: r) fd) with (attach r (AddArray (vtk_of_data d) fd)).
  apply IH. by apply (names_AddArray_named _ _ (name d)).
Qed.

(** X11: in the cell data of every mesh the exporter returns all arrays are
    named and no two arrays have the same name, whatever the names of the
    attributes: the cell data holds at most one array per name. *)
Theorem toVTK_cell_data_names_distinct (e : LineSetElement)
    (m : vtkPolyData) :
  snd (call_toVTK e) = Ok m ->
  NoDup (GetName <$> CellData m) /\ None ∉ GetName <$> CellData m.
Proof.
  intros Hm. destruct (call_toVTK_Ok e m Hm) as (_ & _ & _ & ->).
  cbn [exported output CellData]. apply names_attach. simpl. split.
  - apply NoDup_singleton.
  - intros Hx. apply list_elem_of_singleton in Hx. discriminate Hx.
Qed.

Lemma toVTK_cell_data_names_distinct_witness :
  exists m, snd (call_toVTK with_clashing_attribute) = Ok m /\
    NoDup (GetName <$> CellData m) /\ None ∉ GetName <$> CellData m.
Proof.
  eexists. split; [reflexivity |].
  apply (toVTK_cell_data_names_distinct with_clashing_attribute).
  reflexivity.
Defined.

Lemma replace_or_append_fresh (n : string) (a : vtkAbstractArray)
    (fd : vtkFieldData) :
  Some n ∉ GetName <$> fd -> replace_or_append n a fd = fd ++ [a].
Proof.
  induction fd as [| b r IH]; simpl; [reflexivity |].
  rewrite not_elem_of_cons. intros [Hb Hr].
  rewrite bool_decide_false by congruence. by rewrite IH.
Qed.

Lemma attach_fresh (ds : list ProjectElementData) (fd : vtkFieldData) :
  NoDup (name <$> ds) ->
  Forall (fun d => Some (name d) ∉ GetName <$> fd) ds ->
  attach ds fd = fd ++ (vtk_of_data <$> ds).
Proof.
  revert fd; induction ds as [| d r IH]; intros fd Hnd Hfresh.
  - simpl. by rewrite app_nil_r.
  - change (attach (d :: r) fd) with (attach r (AddArray (vtk_of_data d) fd)).
    rewrite fmap_cons in Hnd. apply NoDup_cons in Hnd as [Hd Hnd].
    apply Forall_cons in Hfresh as [Hfd Hfresh].
    unfold AddArray. cbn [GetName vtk_of_data na_Name].
    rewrite (replace_or_append_fresh _ _ _ Hfd).
    rewrite IH; [by rewrite <- app_assoc | exact Hnd |].
    rewrite Forall_forall in Hfresh |- *. intros d' Hd'.
    rewrite fmap_app, not_elem_of_app. split; [by apply Hfresh |].
    simpl. intros Hx. apply list_elem_of_singleton in Hx.
    injection Hx as Hx. apply Hd. rewrite <- Hx.
    by apply list_elem_of_fmap_2.
Qed.

(** X12: when the attributes have pairwise different names and none is
    called "Line Index", the cell data of every mesh the export returns is
    the array of group ids followed by one array per attribute, in the
    order of the attributes, each under the name of its attribute and over
    its array.  A mesh is returned when the arrays are numeric. *)
Theorem toVTK_cell_data_in_order (e : LineSetElement) :
  segments (geometry e) <> [] ->
  NoDup (name <$> data e) ->
  Forall (fun d => name d <> "Line Index") (data e) ->
  (Forall convertible (data e) -> exists m, snd (call_toVTK e) = Ok m) /\
  (forall m, snd (call_toVTK e) = Ok m ->
     CellData m
     = IntArray {| ia_Name := Some "Line Index";
                   ia_Values := Line_Index e |}
       :: (vtk_of_data <$> data e)).
Proof.
  intros Hne Hnd Hnames. split.
  - intros Hc. destruct (call_toVTK_returns e Hne Hc) as [-> _]. eauto.
  - intros m Hm. destruct (call_toVTK_Ok e m Hm) as (_ & _ & Ha & ->).
    unfold Line_Index. rewrite (call_toVTK_run e Hne).
    cbn [fst exported output CellData indexArr ia_Values].
    rewrite Ha, attach_fresh; [reflexivity | exact Hnd |].
    eapply Forall_impl; [exact Hnames |].
    simpl. intros d Hd Hx. apply list_elem_of_singleton in Hx.
    congruence.
Qed.

Lemma toVTK_cell_data_in_order_witness :
  (exists m, snd (call_toVTK with_long_attribute) = Ok m) /\
  (forall m, snd (call_toVTK with_long_attribute) = Ok m ->
     CellData m
     = IntArray {| ia_Name := Some "Line Index";
                   ia_Values := Line_Index with_long_attribute |}
       :: (vtk_of_data <$> data with_long_attribute)).
Proof.
  destruct (toVTK_cell_data_in_order with_long_attribute) as [H1 H2].
  - discriminate.
  - apply NoDup_singleton.
  - repeat constructor. discriminate.
  - split; [apply H1; repeat constructor | exact H2].
Defined.
